(** * AppHider: [convert_icon.py]

    A shallow embedding of the icon conversion script and the properties
    its specification states about it.

    The script is one function, [convert_to_ico], which calls the image
    library ([Image.open], [Image.save]), [print] and [exit] inside a
    [try ... except Exception] block.  The embedding threads an explicit
    world (filesystem, call log) through a small state-and-exception
    monad; the image codec is a parameter. *)

From Stdlib Require Import ZArith NArith Bool Strings.Byte.
From stdpp Require Import base option list gmap strings pretty.

Local Open Scope Z_scope.

(* ===================================================================== *)
(** ** Python exceptions *)
(* ===================================================================== *)

Module Python.

(** The part of the built-in exception hierarchy the script can meet.
    [UnidentifiedImageError] is the image library's, a subclass of
    [OSError]. *)
Inductive exc_class :=
| BaseException
| Exception
| SystemExit
| KeyboardInterrupt
| GeneratorExit
| OSError
| FileNotFoundError
| PermissionError
| UnidentifiedImageError
| ValueError
| KeyError
| MemoryError.

#[export] Instance exc_class_eq_dec : EqDecision exc_class.
Proof. solve_decision. Defined.

(** The direct base class; [BaseException] is the root. *)
Definition base_of (c : exc_class) : option exc_class :=
  match c with
  | BaseException => None
  | Exception | SystemExit | KeyboardInterrupt | GeneratorExit => Some BaseException
  | OSError | ValueError | KeyError | MemoryError => Some Exception
  | FileNotFoundError | PermissionError | UnidentifiedImageError => Some OSError
  end.

Fixpoint issubclass_upto (fuel : nat) (c d : exc_class) : bool :=
  if decide (c = d) then true
  else match fuel, base_of c with
       | S fuel', Some b => issubclass_upto fuel' b d
       | _, _ => false
       end.

(** [issubclass(c, d)]; the hierarchy above is three levels deep. *)
Definition issubclass (c d : exc_class) : bool := issubclass_upto 3 c d.

(** An exception object: an instance of a class carrying its message, or
    the [SystemExit] raised by [exit(code)]. *)
Inductive py_exc :=
| Exc (cls : exc_class) (msg : string)
| SysExit (code : Z).

Definition type_of (e : py_exc) : exc_class :=
  match e with
  | Exc cls _ => cls
  | SysExit _ => SystemExit
  end.

Definition isinstance (e : py_exc) (d : exc_class) : bool :=
  issubclass (type_of e) d.

(** [str(e)], which is what an f-string inserts for [{e}]. *)
Definition py_str (e : py_exc) : string :=
  match e with
  | Exc _ msg => msg
  | SysExit code => pretty code
  end.

(** The outcome of a call: a value, or a raised exception. *)
Inductive result (A : Type) :=
| Ok (a : A)
| Raise (e : py_exc).
Arguments Ok {A} a.
Arguments Raise {A} e.

(** Exit code of an interpreter whose top level ends with this outcome:
    0 after a normal end, the code of a [SystemExit], 1 after an uncaught
    error.  What an uncaught interrupt yields is left to the platform. *)
Definition exit_code {A} (r : result A) : option Z :=
  match r with
  | Ok _ => Some 0
  | Raise (SysExit code) => Some code
  | Raise (Exc cls _) => if issubclass cls Exception then Some 1 else None
  end.

End Python.
Export Python.

(* ===================================================================== *)
(** ** The world: filesystem and call log *)
(* ===================================================================== *)

(** What the script does to its environment, in order. *)
Inductive event :=
| EvOpen (path : string)
| EvEncode (format : string) (sizes : list (Z * Z))
| EvWrite (path : string) (content : list byte)
| EvPrint (line : string).

Record World := mkWorld {
  fs : gmap string (list byte);   (* regular files by path *)
  locked : gset string;           (* paths that cannot be opened for writing *)
  log : list event                (* events so far, oldest first *)
}.

Definition writable (w : World) (path : string) : Prop := path ∉ locked w.

Definition record (ev : event) (w : World) : World :=
  mkWorld (fs w) (locked w) (log w ++ [ev]).

Definition store (path : string) (content : list byte) (w : World) : World :=
  mkWorld (<[path := content]> (fs w)) (locked w) (log w).

Definition printed (ev : event) : option string :=
  match ev with
  | EvPrint line => Some line
  | _ => None
  end.

(** Standard output: the strings handed to [print], each of which
    [print] ends with a newline. *)
Definition stdout (w : World) : list string := omap printed (log w).

(* ===================================================================== *)
(** ** A state-and-exception monad for Python calls *)
(* ===================================================================== *)

Definition Py (A : Type) : Type := World → result A * World.

#[export] Instance Py_ret : MRet Py := λ A a w, (Ok a, w).

#[export] Instance Py_bind : MBind Py := λ A B f m w,
  match m w with
  | (Ok a, w') => f a w'
  | (Raise e, w') => (Raise e, w')
  end.

Definition py_raise {A} (e : py_exc) : Py A := λ w, (Raise e, w).

(** [try: body  except cls as e: handler(e)].  An exception that is not
    an instance of [cls] passes through. *)
Definition try_except {A} (body : Py A) (cls : exc_class)
    (handler : py_exc → Py A) : Py A := λ w,
  match body w with
  | (Ok a, w') => (Ok a, w')
  | (Raise e, w') =>
      if isinstance e cls then handler e w' else (Raise e, w')
  end.

(** [print(line)] on a working console: the line is written. *)
Definition print (line : string) : Py unit := λ w,
  (Ok (), record (EvPrint line) w).

(** [exit(code)] raises [SystemExit(code)]. *)
Definition exit (code : Z) : Py unit := py_raise (SysExit code).

(* ===================================================================== *)
(** ** The ICO container *)
(* ===================================================================== *)

Module Ico.

Local Open Scope N_scope.

Definition le16 (b0 b1 : byte) : N :=
  Byte.to_N b0 + 256 * Byte.to_N b1.

Definition le32 (b0 b1 b2 b3 : byte) : N :=
  le16 b0 b1 + 65536 * le16 b2 b3.

(** A directory entry stores each dimension in one byte; 0 stands for 256. *)
Definition dim (b : byte) : Z :=
  if Byte.to_N b =? 0 then 256%Z else Z.of_N (Byte.to_N b).

(** The first [n] 16-byte directory entries of [dir]: width, height,
    colour count, reserved, planes (2), bit count (2), size of the image
    data (4), offset of the image data (4).  The data of every entry
    must lie behind the directory ([first]) and inside the file ([len]). *)
Fixpoint entries (n : nat) (first len : N) (dir : list byte)
    : option (list (Z * Z)) :=
  match n with
  | O => Some []
  | S n' =>
      match dir with
      | bw :: bh :: _ :: _ :: _ :: _ :: _ :: _ ::
        s0 :: s1 :: s2 :: s3 :: o0 :: o1 :: o2 :: o3 :: dir' =>
          if (first <=? le32 o0 o1 o2 o3) &&
             (le32 o0 o1 o2 o3 + le32 s0 s1 s2 s3 <=? len)
          then cons (dim bw, dim bh) <$> entries n' first len dir'
          else None
      | _ => None
      end
  end.

(** The frame sizes listed by an ICO file, [None] when the bytes are not
    a well-formed icon container: reserved word 0, type 1 (icon), the
    number of entries, then the directory. *)
Definition frames (file : list byte) : option (list (Z * Z)) :=
  match file with
  | r0 :: r1 :: t0 :: t1 :: c0 :: c1 :: dir =>
      if (le16 r0 r1 =? 0) && (le16 t0 t1 =? 1)
      then entries (N.to_nat (le16 c0 c1)) (6 + 16 * le16 c0 c1)
                   (N.of_nat (length file)) dir
      else None
  | _ => None
  end.

End Ico.

(* ===================================================================== *)
(** ** The image library *)
(* ===================================================================== *)

(** An image held in memory after decoding. *)
Record image := mkImage {
  img_size : Z * Z;
  img_mode : string;
  img_data : list byte
}.

(** The image codec the script relies on: decoding the bytes of a raster
    file, and encoding an image in a named container format with a list
    of frame sizes.  Either may raise. *)
Record Codec := mkCodec {
  decode : list byte → result image;
  encode : image → string → list (Z * Z) → result (list byte)
}.

Definition errno_message (errno : string) (path : string) : string :=
  errno +:+ ": '" +:+ path +:+ "'".

(** Modelled from the spec: [Image.open(path)] of the image library,
    which reads the file at [path] and decodes it; a missing file raises
    [FileNotFoundError].  Nothing is written. *)
Definition Image_open (c : Codec) (path : string) : Py image := λ w,
  let w := record (EvOpen path) w in
  match fs w !! path with
  | None =>
      (Raise (Exc FileNotFoundError
                (errno_message "[Errno 2] No such file or directory" path)), w)
  | Some content => (decode c content, w)
  end.

(** Modelled from the spec: [img.save(path, format=..., sizes=...)] of
    the image library, which encodes the image and writes the bytes to
    [path], creating the file or replacing its content; a path that
    cannot be opened for writing raises [PermissionError]. *)
Definition Image_save (c : Codec) (img : image) (path : string)
    (format : string) (sizes : list (Z * Z)) : Py unit := λ w,
  let w := record (EvEncode format sizes) w in
  match encode c img format sizes with
  | Raise e => (Raise e, w)
  | Ok content =>
      if decide (path ∈ locked w)
      then (Raise (Exc PermissionError
                     (errno_message "[Errno 13] Permission denied" path)), w)
      else (Ok (), record (EvWrite path content) (store path content w))
  end.

(* ===================================================================== *)
(** ** [convert_icon.py] *)
(* ===================================================================== *)

(** [f"Successfully converted {source} to {target}"] *)
Definition success_message (source target : string) : string :=
  "Successfully converted " +:+ source +:+ " to " +:+ target.

(** [f"Error converting icon: {e}"] *)
Definition error_message (e : py_exc) : string :=
  "Error converting icon: " +:+ py_str e.

(** The body of the [try] block. *)
Definition convert_body (c : Codec) (source target : string) : Py unit :=
  img ← Image_open c source;
  Image_save c img target "ICO" [(256, 256)];;
  print (success_message source target).

(** The [except Exception as e] block. *)
Definition convert_handler (e : py_exc) : Py unit :=
  print (error_message e);;
  exit 1.

Definition convert_to_ico (c : Codec) (source target : string) : Py unit :=
  try_except (convert_body c source target) Exception convert_handler.

(** The [__main__] block. *)
Definition main (c : Codec) : Py unit :=
  convert_to_ico c "d:/kaifa/apphier/AppHider/icon.png"
                   "d:/kaifa/apphier/AppHider/app.ico".

(** *** The same function on a console that may refuse a line

    [print] above is the working console: it always writes.  Python's
    [print] raises when the stream is closed or broken, or cannot encode
    the text.  A console says what handing it a line raises, if
    anything. *)
Definition Console : Type := string → option py_exc.

Definition working_console : Console := λ _, None.

(** [print(line)] on a given console: a refused line is not written. *)
Definition print_to (con : Console) (line : string) : Py unit := λ w,
  match con line with
  | Some e => (Raise e, w)
  | None => (Ok (), record (EvPrint line) w)
  end.

(** The [try] block, the [except] block and the function, line for line
    as above, with [print] on the given console. *)
Definition convert_body_on (con : Console) (c : Codec)
    (source target : string) : Py unit :=
  img ← Image_open c source;
  Image_save c img target "ICO" [(256, 256)];;
  print_to con (success_message source target).

Definition convert_handler_on (con : Console) (e : py_exc) : Py unit :=
  print_to con (error_message e);;
  exit 1.

Definition convert_to_ico_on (con : Console) (c : Codec)
    (source target : string) : Py unit :=
  try_except (convert_body_on con c source target) Exception
             (convert_handler_on con).

(* ===================================================================== *)
(** ** What the script expects of the codec *)
(* ===================================================================== *)

(** Modelled from the spec: the contract of the codec's encoder, which
    is not part of the repository.  Encoding in ICO format with the size
    list [[(256, 256)]], when it succeeds, yields a container whose
    directory lists exactly that frame.  It may also fail, as on an
    image mode it does not support. *)
Definition encodes_icon (c : Codec) : Prop :=
  ∀ img content,
    encode c img "ICO" [(256, 256)] = Ok content →
    Ico.frames content = Some [(256, 256)].

(** Modelled from the spec: the round trip of the codec, which is not
    part of the repository.  Decoding a file it encoded that way gives
    back an image of the requested size. *)
Definition decodes_icon (c : Codec) : Prop :=
  ∀ img content,
    encode c img "ICO" [(256, 256)] = Ok content →
    ∃ img', decode c content = Ok img' ∧ img_size img' = (256, 256).

(** The conversion of [source] goes through in [w]: the file is there,
    the codec decodes it to [img] and encodes [img] to [content]. *)
Definition converts (c : Codec) (w : World) (source : string)
    (img : image) (content : list byte) : Prop :=
  ∃ raw, fs w !! source = Some raw ∧ decode c raw = Ok img ∧
         encode c img "ICO" [(256, 256)] = Ok content.

(** A codec whose failures are all errors: what it raises is an
    instance of [Exception]. *)
Definition raises_only_errors (c : Codec) : Prop :=
  (∀ raw e, decode c raw = Raise e → isinstance e Exception = true) ∧
  (∀ img format sizes e,
     encode c img format sizes = Raise e → isinstance e Exception = true).

(* ===================================================================== *)
(** ** A small codec for closed examples *)
(* ===================================================================== *)

Module Solid.

(** A one-colour bitmap: the letter S, width, height, a mode letter
    (R for RGBA, C for CMYK) and the colour. *)
Definition decode_bitmap (raw : list byte) : result image :=
  match raw with
  | [x53; bw; bh; x52; colour] =>
      Ok (mkImage (Ico.dim bw, Ico.dim bh) "RGBA" [colour])
  | [x53; bw; bh; x43; colour] =>
      Ok (mkImage (Ico.dim bw, Ico.dim bh) "CMYK" [colour])
  | _ => Raise (Exc UnidentifiedImageError "cannot identify image file")
  end.

(** Icons decode to their first frame. *)
Definition decode (raw : list byte) : result image :=
  match Ico.frames raw with
  | Some (size :: _) => Ok (mkImage size "RGBA" (drop 22 raw))
  | _ => decode_bitmap raw
  end.

Definition dim_byte (n : Z) : byte :=
  default x00 (Byte.of_N (Z.to_N (n `mod` 256))).

(** One directory entry and one byte of image data. *)
Definition encode_icon (img : image) (size : Z * Z) : list byte :=
  [x00; x00; x01; x00; x01; x00;
   dim_byte size.1; dim_byte size.2; x00; x00; x01; x00; x20; x00;
   x01; x00; x00; x00; x16; x00; x00; x00;
   default x00 (head (img_data img))].

Definition encode (img : image) (format : string) (sizes : list (Z * Z))
    : result (list byte) :=
  if decide (format = "ICO") then
    if decide (img_mode img = "CMYK")
    then Raise (Exc OSError "cannot write mode CMYK as PNG")
    else match sizes with
         | [size] =>
             if decide (1 ≤ size.1 ≤ 256 ∧ 1 ≤ size.2 ≤ 256)
             then Ok (encode_icon img size)
             else Raise (Exc ValueError "bad icon size")
         | _ => Raise (Exc ValueError "one size expected")
         end
  else Raise (Exc KeyError format).

Definition codec : Codec := mkCodec decode encode.

(** A codec interrupted from the keyboard while it decodes. *)
Definition interrupted : Codec :=
  mkCodec (λ _, Raise (Exc KeyboardInterrupt EmptyString)) encode.

(** A console whose stream was closed: every print raises. *)
Definition closed_console : Console :=
  λ _, Some (Exc ValueError "I/O operation on closed file.").

Definition rgba_bitmap : list byte := [x53; x02; x02; x52; x7f].
Definition cmyk_bitmap : list byte := [x53; x02; x02; x43; x7f].

Definition rgba_image : image := mkImage (2, 2) "RGBA" [x7f].

(** The icon the codec makes of [rgba_image]. *)
Definition rgba_icon : list byte := encode_icon rgba_image (256, 256).

Definition world (files : list (string * list byte)) : World :=
  mkWorld (list_to_map files) ∅ [].

(** A directory with an RGBA picture, a CMYK picture and a text file. *)
Definition desk : World :=
  world [("icon.png", rgba_bitmap); ("print.tif", cmyk_bitmap);
         ("notes.txt", [x68; x69])].

(** The same directory with the icon path closed to writing. *)
Definition locked_desk : World :=
  mkWorld (fs desk) {["app.ico"]} [].

End Solid.

(* ===================================================================== *)
(** ** Runs of the [try] block *)
(* ===================================================================== *)

Definition file_not_found (path : string) : py_exc :=
  Exc FileNotFoundError
      (errno_message "[Errno 2] No such file or directory" path).

Definition permission_denied (path : string) : py_exc :=
  Exc PermissionError (errno_message "[Errno 13] Permission denied" path).

(** The world after the source was opened, and after the encoder ran. *)
Definition opened (source : string) (w : World) : World :=
  record (EvOpen source) w.

Definition encoded (source : string) (w : World) : World :=
  record (EvEncode "ICO" [(256, 256)]) (opened source w).

Definition written (source target : string) (content : list byte)
    (w : World) : World :=
  record (EvWrite target content) (store target content (encoded source w)).

(** The five ways the [try] block can run: one per failure cause, and the
    complete conversion. *)
Inductive body_run (c : Codec) (source target : string) (w : World)
    : result unit * World → Prop :=
| run_missing :
    fs w !! source = None →
    body_run c source target w (Raise (file_not_found source), opened source w)
| run_undecodable raw e :
    fs w !! source = Some raw →
    decode c raw = Raise e →
    body_run c source target w (Raise e, opened source w)
| run_unencodable raw img e :
    fs w !! source = Some raw →
    decode c raw = Ok img →
    encode c img "ICO" [(256, 256)] = Raise e →
    body_run c source target w (Raise e, encoded source w)
| run_unwritable raw img content :
    fs w !! source = Some raw →
    decode c raw = Ok img →
    encode c img "ICO" [(256, 256)] = Ok content →
    target ∈ locked w →
    body_run c source target w
      (Raise (permission_denied target), encoded source w)
| run_converted raw img content :
    fs w !! source = Some raw →
    decode c raw = Ok img →
    encode c img "ICO" [(256, 256)] = Ok content →
    target ∉ locked w →
    body_run c source target w
      (Ok (), record (EvPrint (success_message source target))
                (written source target content w)).

(** An exception [e] comes out of the decode step, or out of the encode
    and write step that follows a successful decode. *)
Definition raised_by_step (c : Codec) (source target : string) (w : World)
    (e : py_exc) : Prop :=
  (Image_open c source w).1 = Raise e ∨
  ∃ img w1, Image_open c source w = (Ok img, w1) ∧
            (Image_save c img target "ICO" [(256, 256)] w1).1 = Raise e.

(** An exception [e] comes out of the [try] block run on a console: out
    of a step, or out of the success print after the conversion. *)
Definition raised_in_try (con : Console) (c : Codec)
    (source target : string) (w : World) (e : py_exc) : Prop :=
  raised_by_step c source target w e ∨
  ∃ img content,
    converts c w source img content ∧ writable w target ∧
    con (success_message source target) = Some e.

(** The events a run adds to the log. *)
Definition new_events (w w' : World) : list event :=
  drop (length (log w)) (log w').

(** Events that are prints only: no decoding, encoding or writing. *)
Definition only_prints (evs : list event) : Prop :=
  ∀ ev, ev ∈ evs → ∃ line, ev = EvPrint line.

(** The three ways a call of [convert_to_ico] can end: it returns after
    the conversion, the handler reports a caught exception and exits, or
    an exception the handler does not catch passes to the caller. *)
Inductive script_run (c : Codec) (source target : string) (w : World)
    : result unit * World → Prop :=
| script_returns w' :
    convert_body c source target w = (Ok (), w') →
    script_run c source target w (Ok (), w')
| script_exits e w' :
    convert_body c source target w = (Raise e, w') →
    isinstance e Exception = true →
    script_run c source target w
      (Raise (SysExit 1), record (EvPrint (error_message e)) w')
| script_passes e w' :
    convert_body c source target w = (Raise e, w') →
    isinstance e Exception = false →
    script_run c source target w (Raise e, w').

(** The four ways a call can end on a console that may refuse a line:
    it returns; the handler prints and exits; the handler's own print
    raises; or the [try] block raised what the handler does not catch. *)
Inductive console_run (con : Console) (c : Codec) (source target : string)
    (w : World) : result unit * World → Prop :=
| on_returns img content :
    converts c w source img content →
    writable w target →
    con (success_message source target) = None →
    console_run con c source target w
      (Ok (), record (EvPrint (success_message source target))
                (written source target content w))
| on_exits e0 w' :
    raised_in_try con c source target w e0 →
    isinstance e0 Exception = true →
    con (error_message e0) = None →
    console_run con c source target w
      (Raise (SysExit 1), record (EvPrint (error_message e0)) w')
| on_reraises e0 e w' :
    raised_in_try con c source target w e0 →
    isinstance e0 Exception = true →
    con (error_message e0) = Some e →
    console_run con c source target w (Raise e, w')
| on_passes e0 w' :
    raised_in_try con c source target w e0 →
    isinstance e0 Exception = false →
    console_run con c source target w (Raise e0, w').

(* ===================================================================== *)
(** ** Basic facts *)
(* ===================================================================== *)

Lemma issubclass_Exception_SystemExit : issubclass SystemExit Exception = false.
Proof. reflexivity. Qed.

Lemma isinstance_SysExit code : isinstance (SysExit code) Exception = false.
Proof. reflexivity. Qed.

Lemma isinstance_file_not_found path :
  isinstance (file_not_found path) Exception = true.
Proof. reflexivity. Qed.

Lemma isinstance_permission_denied path :
  isinstance (permission_denied path) Exception = true.
Proof. reflexivity. Qed.

Lemma stdout_record_print line w :
  stdout (record (EvPrint line) w) = stdout w ++ [line].
Proof. unfold stdout, record; simpl. by rewrite omap_app. Qed.

Lemma stdout_opened source w : stdout (opened source w) = stdout w.
Proof.
  unfold stdout, opened, record; simpl.
  rewrite omap_app; simpl. apply app_nil_r.
Qed.

Lemma stdout_encoded source w : stdout (encoded source w) = stdout w.
Proof.
  unfold stdout, encoded, record; simpl.
  rewrite omap_app; simpl. rewrite app_nil_r. apply stdout_opened.
Qed.

Lemma stdout_written source target content w :
  stdout (written source target content w) = stdout w.
Proof.
  unfold stdout, written, record, store; simpl.
  rewrite !omap_app; simpl. by rewrite !app_nil_r.
Qed.

Lemma new_events_app w w' evs : log w' = log w ++ evs → new_events w w' = evs.
Proof. intros H. unfold new_events. rewrite H. apply drop_app_length. Qed.

(** The [try] block always runs in one of the five ways. *)
Lemma convert_body_run c source target w :
  body_run c source target w (convert_body c source target w).
Proof.
  unfold convert_body, Image_open, Image_save, print, mbind, Py_bind; simpl.
  destruct (fs w !! source) as [raw|] eqn:Hraw; [|by constructor].
  destruct (decode c raw) as [img|e] eqn:Hdec; [|by econstructor].
  destruct (encode c img "ICO" [(256, 256)]) as [content|e] eqn:Henc;
    [|by eapply run_unencodable].
  simpl. destruct (decide (target ∈ locked w)) as [Hlock|Hlock].
  - by eapply run_unwritable.
  - by eapply run_converted.
Qed.

Lemma Image_open_eq c path w :
  Image_open c path w =
    (match fs w !! path with
     | None => Raise (file_not_found path)
     | Some raw => decode c raw
     end, opened path w).
Proof. unfold Image_open; simpl. by destruct (fs w !! path). Qed.

Lemma Image_save_result c img path format sizes w :
  (Image_save c img path format sizes w).1 =
    match encode c img format sizes with
    | Raise e => Raise e
    | Ok _ => if decide (path ∈ locked w)
              then Raise (permission_denied path) else Ok ()
    end.
Proof.
  unfold Image_save; simpl.
  destruct (encode c img format sizes); [|done].
  by destruct (decide (path ∈ locked w)).
Qed.

Lemma convert_body_result c source target w :
  (convert_body c source target w).1 =
    match (Image_open c source w).1 with
    | Raise e => Raise e
    | Ok img => (Image_save c img target "ICO" [(256, 256)]
                   (opened source w)).1
    end.
Proof.
  unfold convert_body, mbind, Py_bind. rewrite Image_open_eq; simpl.
  destruct (match fs w !! source with Some raw => decode c raw | None => _ end)
    as [img|e]; [|done].
  destruct (Image_save c img target "ICO" [(256, 256)] (opened source w))
    as [[[]|e] w2] eqn:Hsave; done.
Qed.

(** A step raises exactly when the [try] block does: [print] cannot. *)
Lemma raised_by_step_body c source target w e :
  raised_by_step c source target w e ↔
  (convert_body c source target w).1 = Raise e.
Proof.
  rewrite convert_body_result. unfold raised_by_step.
  rewrite Image_open_eq; simpl.
  destruct (match fs w !! source with Some raw => decode c raw | None => _ end)
    as [img|e'].
  - split.
    + intros [H|(i & w1 & [= <- <-] & H)]; [discriminate H|done].
    + intros H. right. eexists _, _. split; [reflexivity|exact H].
  - split; [|intros [= ->]; by left].
    intros [[= ->]|(i & w1 & H & _)]; [done|discriminate H].
Qed.

(** What [convert_to_ico] does with each outcome of the [try] block. *)
Lemma convert_to_ico_returns c source target w w' :
  convert_body c source target w = (Ok (), w') →
  convert_to_ico c source target w = (Ok (), w').
Proof. intros H. unfold convert_to_ico, try_except. by rewrite H. Qed.

Lemma convert_to_ico_handles c source target w e w' :
  convert_body c source target w = (Raise e, w') →
  isinstance e Exception = true →
  convert_to_ico c source target w =
    (Raise (SysExit 1), record (EvPrint (error_message e)) w').
Proof.
  intros H He. unfold convert_to_ico, try_except. rewrite H, He. reflexivity.
Qed.

Lemma convert_to_ico_passes c source target w e w' :
  convert_body c source target w = (Raise e, w') →
  isinstance e Exception = false →
  convert_to_ico c source target w = (Raise e, w').
Proof.
  intros H He. unfold convert_to_ico, try_except. by rewrite H, He.
Qed.

Lemma convert_body_converted c source target w raw img content :
  fs w !! source = Some raw →
  decode c raw = Ok img →
  encode c img "ICO" [(256, 256)] = Ok content →
  target ∉ locked w →
  convert_body c source target w =
    (Ok (), record (EvPrint (success_message source target))
              (written source target content w)).
Proof.
  intros Hraw Hdec Henc Hlock.
  unfold convert_body, Image_open, Image_save, print, mbind, Py_bind; simpl.
  rewrite Hraw, Hdec, Henc; simpl. by rewrite decide_False.
Qed.

(** A run of the [try] block that returns has converted the source. *)
Lemma convert_body_returns c source target w w' :
  convert_body c source target w = (Ok (), w') →
  ∃ img content,
    converts c w source img content ∧ (target ∉ locked w) ∧
    w' = (record (EvPrint (success_message source target))
            (written source target content w)).
Proof.
  intros Hbody. pose proof (convert_body_run c source target w) as Hrun.
  rewrite Hbody in Hrun. inversion Hrun; subst.
  eexists _, _. split; [by eexists|done].
Qed.

(** The filesystem after a run of the [try] block: untouched, or the
    encoded icon stored at the target. *)
Lemma convert_body_fs c source target w :
  fs (convert_body c source target w).2 = fs w ∨
  ∃ img content,
    converts c w source img content ∧
    (convert_body c source target w).1 = Ok () ∧
    fs (convert_body c source target w).2 = <[target := content]> (fs w).
Proof.
  destruct (convert_body_run c source target w); simpl; auto.
  right. eexists _, _. split; [by eexists|done].
Qed.

(** The handler and the pass-through leave the filesystem as the [try]
    block left it. *)
Lemma convert_to_ico_fs c source target w :
  fs (convert_to_ico c source target w).2 =
  fs (convert_body c source target w).2.
Proof.
  unfold convert_to_ico, try_except.
  destruct (convert_body c source target w) as [[[]|e] w']; simpl; [done|].
  by destruct (isinstance e Exception).
Qed.

Lemma convert_to_ico_locked c source target w :
  locked (convert_to_ico c source target w).2 = locked w.
Proof.
  unfold convert_to_ico, try_except.
  destruct (convert_body_run c source target w) as [| | | |]; simpl;
    try done;
    match goal with |- context [isinstance ?e Exception] =>
      by destruct (isinstance e Exception) end.
Qed.

(* ===================================================================== *)
(** ** Successful conversion *)
(* ===================================================================== *)

(** C1 (as amended).  When the source holds an image the codec decodes
    and can encode as an icon, and the target is writable, the call
    returns normally, the process exit code is 0, the success line is
    printed, and the target holds the encoded bytes, which under the codec
    contract are an ICO container with the single frame 256 x 256. *)
Theorem convert_encodable_source_produces_icon
    c w source target img content :
  encodes_icon c →
  converts c w source img content →
  writable w target →
  let r := convert_to_ico c source target w in
  r.1 = Ok () ∧ exit_code r.1 = Some 0 ∧
  stdout r.2 = stdout w ++ [success_message source target] ∧
  fs r.2 !! target = Some content ∧
  Ico.frames content = Some [(256, 256)].
Proof.
  intros Hcodec (raw & Hraw & Hdec & Henc) Hw r. subst r.
  rewrite (convert_to_ico_returns _ _ _ _ _
             (convert_body_converted _ _ _ _ _ _ _ Hraw Hdec Henc Hw)).
  cbn [fst snd exit_code]. repeat split.
  - by rewrite stdout_record_print, stdout_written.
  - apply lookup_insert_eq.
  - by eapply Hcodec.
Qed.

(* ===================================================================== *)
(** ** Failures *)
(* ===================================================================== *)

(** A run of the [try] block that raises has printed nothing and written
    nothing; it stopped after the open or after the encoder. *)
Lemma convert_body_raises c source target w e w' :
  convert_body c source target w = (Raise e, w') →
  (w' = opened source w ∨ w' = encoded source w) ∧
  stdout w' = stdout w ∧ fs w' = fs w.
Proof.
  intros Hbody. pose proof (convert_body_run c source target w) as Hrun.
  rewrite Hbody in Hrun.
  inversion Hrun; subst; (split; [auto|split; [|done]]);
    first [apply stdout_opened | apply stdout_encoded].
Qed.

Lemma convert_body_missing c source target w :
  fs w !! source = None →
  convert_body c source target w =
    (Raise (file_not_found source), opened source w).
Proof.
  intros Hraw. unfold convert_body, mbind, Py_bind.
  rewrite Image_open_eq, Hraw. reflexivity.
Qed.

Lemma log_converted source target content w line :
  log (record (EvPrint line) (written source target content w)) =
  log w ++ [EvOpen source; EvEncode "ICO" [(256, 256)];
            EvWrite target content; EvPrint line].
Proof. simpl. by rewrite <- !app_assoc. Qed.

(** A failure raised by a step reaches the handler, which prints the
    error line and exits with code 1. *)
Lemma convert_to_ico_caught c source target w e :
  raised_by_step c source target w e →
  isinstance e Exception = true →
  ∃ w', convert_body c source target w = (Raise e, w') ∧
        convert_to_ico c source target w = convert_handler e w' ∧
        convert_handler e w' =
          (Raise (SysExit 1), record (EvPrint (error_message e)) w') ∧
        stdout w' = stdout w ∧ fs w' = fs w.
Proof.
  intros Hstep He. apply raised_by_step_body in Hstep.
  destruct (convert_body c source target w) as [b w'] eqn:Hbody.
  simpl in Hstep. subst b. exists w'.
  destruct (convert_body_raises _ _ _ _ _ _ Hbody) as (_ & Hout & Hfs).
  repeat split; try done.
  unfold convert_to_ico, try_except. by rewrite Hbody, He.
Qed.

(** C2.  A failure is an error in Python's sense, an instance of
    [Exception], as the four listed causes are ([FileNotFoundError],
    [UnidentifiedImageError], [PermissionError], the encoder's [OSError]
    or [ValueError]).  Whatever failure the decode step or the encode and
    write step raises, the handler catches it, prints the one line
    "Error converting icon: " followed by the failure's description, and
    ends the process with exit code 1: the outcome depends on the failure
    only through its description. *)
Theorem every_failure_is_reported c w source target e :
  raised_by_step c source target w e →
  isinstance e Exception = true →
  let r := convert_to_ico c source target w in
  r.1 = Raise (SysExit 1) ∧ exit_code r.1 = Some 1 ∧
  stdout r.2 = stdout w ++ ["Error converting icon: " +:+ py_str e].
Proof.
  intros Hstep He r. subst r.
  destruct (convert_to_ico_caught _ _ _ _ _ Hstep He)
    as (w' & _ & -> & -> & Hout & _).
  cbn [fst snd exit_code]. repeat split.
  by rewrite stdout_record_print, Hout.
Qed.

(** C3 (as amended).  In every execution that returns or in which a
    failure is caught, standard output gains exactly one line: when the
    call succeeds the line "Successfully converted {source} to {target}",
    and that print is the event following the write of the target, whose
    content is then in place; when a failure is caught the line
    "Error converting icon: {description}".  An execution left by an
    exception the handler does not catch prints nothing.  There is no
    other execution: the call returns or a step has raised. *)
Theorem console_output_is_one_line c w source target :
  let r := convert_to_ico c source target w in
  (r.1 = Ok () →
     stdout r.2 =
       stdout w ++ ["Successfully converted " +:+ source +:+ " to " +:+ target] ∧
     ∃ content,
       new_events w r.2 =
         [EvOpen source; EvEncode "ICO" [(256, 256)];
          EvWrite target content;
          EvPrint (success_message source target)] ∧
       fs r.2 !! target = Some content) ∧
  (∀ e, raised_by_step c source target w e →
        isinstance e Exception = true →
        stdout r.2 = stdout w ++ ["Error converting icon: " +:+ py_str e]) ∧
  (∀ e, raised_by_step c source target w e →
        isinstance e Exception = false →
        r.1 = Raise e ∧ stdout r.2 = stdout w) ∧
  (r.1 = Ok () ∨ ∃ e, raised_by_step c source target w e).
Proof.
  intros r. split; [|split; [|split]].
  - subst r. unfold convert_to_ico, try_except.
    destruct (convert_body c source target w) as [[[]|e] w'] eqn:Hbody.
    + intros _. cbn [fst snd].
      destruct (convert_body_returns _ _ _ _ _ Hbody)
        as (img & content & _ & _ & ->).
      split.
      * by rewrite stdout_record_print, stdout_written.
      * exists content. split.
        -- apply new_events_app, log_converted.
        -- apply lookup_insert_eq.
    + destruct (isinstance e Exception); simpl; discriminate.
  - intros e Hstep He. subst r.
    destruct (convert_to_ico_caught _ _ _ _ _ Hstep He)
      as (w' & _ & -> & -> & Hout & _).
    cbn [snd]. by rewrite stdout_record_print, Hout.
  - intros e Hstep He. subst r. apply raised_by_step_body in Hstep.
    destruct (convert_body c source target w) as [b w'] eqn:Hbody.
    simpl in Hstep. subst b.
    rewrite (convert_to_ico_passes _ _ _ _ _ _ Hbody He).
    split; [done|].
    by destruct (convert_body_raises _ _ _ _ _ _ Hbody) as (_ & Hout & _).
  - subst r. unfold convert_to_ico, try_except.
    pose proof (raised_by_step_body c source target w) as Hstep.
    destruct (convert_body c source target w) as [[[]|e] w'].
    + by left.
    + right. exists e. by apply Hstep.
Qed.

(** C4.  When no file exists at the source path, the handler prints the
    error line for the [FileNotFoundError], the process exit code is 1,
    and the filesystem is left as it was: in particular the target is
    neither created nor modified, and nothing was written. *)
Theorem missing_source_leaves_target c w source target :
  fs w !! source = None →
  let r := convert_to_ico c source target w in
  r.1 = Raise (SysExit 1) ∧ exit_code r.1 = Some 1 ∧
  stdout r.2 = stdout w ++ [error_message (file_not_found source)] ∧
  fs r.2 !! target = fs w !! target ∧
  fs r.2 = fs w ∧
  new_events w r.2 =
    [EvOpen source; EvPrint (error_message (file_not_found source))].
Proof.
  intros Hraw r. subst r.
  rewrite (convert_to_ico_handles _ _ _ _ _ _
             (convert_body_missing c source target w Hraw)
             (isinstance_file_not_found source)).
  cbn [fst snd exit_code]. repeat split.
  - by rewrite stdout_record_print, stdout_opened.
  - apply new_events_app. simpl. by rewrite <- app_assoc.
Qed.

(* ===================================================================== *)
(** ** Which exceptions the handler catches *)
(* ===================================================================== *)

(** C5 (as amended).  Every exception raised in the [try] block that is
    an instance of [Exception] is caught: control reaches the one handler
    branch, which reports and exits.  An exception that is not an
    instance of [Exception] is not caught and reaches the caller as it
    was raised.  Hence nothing that leaves the call is an instance of
    [Exception]. *)
Theorem handler_catches_instances_of_Exception c w source target :
  (∀ e w', convert_body c source target w = (Raise e, w') →
           isinstance e Exception = true →
           convert_to_ico c source target w = convert_handler e w' ∧
           convert_handler e w' =
             (Raise (SysExit 1), record (EvPrint (error_message e)) w')) ∧
  (∀ e w', convert_body c source target w = (Raise e, w') →
           isinstance e Exception = false →
           convert_to_ico c source target w = (Raise e, w')) ∧
  (∀ e, (convert_to_ico c source target w).1 = Raise e →
        isinstance e Exception = false).
Proof.
  unfold convert_to_ico, try_except. split; [|split].
  - intros e w' Hbody He. by rewrite Hbody, He.
  - intros e w' Hbody He. by rewrite Hbody, He.
  - intros e. destruct (convert_body c source target w) as [[[]|e'] w'].
    + discriminate.
    + destruct (isinstance e' Exception) eqn:He'; simpl.
      * by intros [= <-].
      * by intros [= <-].
Qed.

(* ===================================================================== *)
(** ** Running the conversion again, and reading the icon back *)
(* ===================================================================== *)

(** A call that returns has converted the source and stored the icon. *)
Lemma convert_to_ico_ok_inv c source target w :
  (convert_to_ico c source target w).1 = Ok () →
  ∃ img content,
    converts c w source img content ∧ (target ∉ locked w) ∧
    convert_to_ico c source target w =
      (Ok (), record (EvPrint (success_message source target))
                (written source target content w)).
Proof.
  unfold convert_to_ico, try_except.
  destruct (convert_body c source target w) as [[[]|e] w'] eqn:Hbody.
  - intros _.
    destruct (convert_body_returns _ _ _ _ _ Hbody)
      as (img & content & Hconv & Hlock & ->).
    by exists img, content.
  - destruct (isinstance e Exception); discriminate.
Qed.

Lemma convert_to_ico_converted c source target w img content :
  converts c w source img content →
  target ∉ locked w →
  convert_to_ico c source target w =
    (Ok (), record (EvPrint (success_message source target))
              (written source target content w)).
Proof.
  intros (raw & Hraw & Hdec & Henc) Hlock.
  apply convert_to_ico_returns. by eapply convert_body_converted.
Qed.

(** C6.  On a valid input the first run stores the encoded icon.  A
    second run with the same paths leaves at the target a file with the
    same frame list, 256 x 256; when source and target are different
    paths the second run succeeds too and the file is the same, byte for
    byte. *)
Theorem second_run_gives_same_icon c w source target img content :
  encodes_icon c →
  converts c w source img content →
  writable w target →
  let r1 := convert_to_ico c source target w in
  let r2 := convert_to_ico c source target r1.2 in
  r1.1 = Ok () ∧ fs r1.2 !! target = Some content ∧
  (source ≠ target → r2.1 = Ok () ∧ fs r2.2 !! target = Some content) ∧
  (∃ content2,
     fs r2.2 !! target = Some content2 ∧
     Ico.frames content2 = Ico.frames content ∧
     Ico.frames content = Some [(256, 256)]).
Proof.
  intros Hcodec Hconv Hw r1 r2. subst r2 r1.
  rewrite (convert_to_ico_converted _ _ _ _ _ _ Hconv Hw). cbn [fst snd].
  set (w1 := record _ _).
  assert (Hfs1 : fs w1 = <[target := content]> (fs w)) by done.
  assert (Hframes : Ico.frames content = Some [(256, 256)]).
  { destruct Hconv as (raw & _ & _ & Henc). by eapply Hcodec. }
  split; [done|]. split; [by rewrite Hfs1, lookup_insert_eq|]. split.
  - intros Hne.
    assert (Hconv1 : converts c w1 source img content).
    { destruct Hconv as (raw & Hraw & Hdec & Henc). exists raw.
      by rewrite Hfs1, lookup_insert_ne. }
    rewrite (convert_to_ico_converted _ _ _ _ _ _ Hconv1 Hw).
    split; [done|]. simpl. apply lookup_insert_eq.
  - rewrite convert_to_ico_fs.
    destruct (convert_body_fs c source target w1)
      as [->|(img2 & content2 & (raw2 & _ & _ & Henc2) & _ & ->)].
    + exists content. by rewrite Hfs1, lookup_insert_eq.
    + exists content2. rewrite lookup_insert_eq.
      split; [done|]. split; [|done].
      rewrite Hframes. by eapply Hcodec.
Qed.

(** C7.  After a successful conversion, opening the file at the target
    with the same library yields an image of 256 x 256 pixels, for a
    codec that reads back the icons it writes. *)
Theorem produced_icon_decodes_to_256 c w source target :
  decodes_icon c →
  let r := convert_to_ico c source target w in
  r.1 = Ok () →
  ∃ img', (Image_open c target r.2).1 = Ok img' ∧ img_size img' = (256, 256).
Proof.
  intros Hcodec r Hok. subst r.
  destruct (convert_to_ico_ok_inv _ _ _ _ Hok)
    as (img & content & (raw & _ & _ & Henc) & _ & ->).
  destruct (Hcodec _ _ Henc) as (img' & Hdec & Hsize).
  exists img'. split; [|done].
  rewrite Image_open_eq. cbn [fst snd]. simpl.
  by rewrite lookup_insert_eq.
Qed.

(* ===================================================================== *)
(** ** Order of the steps and frame of the effects *)
(* ===================================================================== *)

Lemma returns_or_not (r : result unit) : r = Ok () ∨ r ≠ Ok ().
Proof. destruct r as [[]|e]; [by left|by right]. Qed.

Lemma convert_to_ico_run c source target w :
  script_run c source target w (convert_to_ico c source target w).
Proof.
  unfold convert_to_ico, try_except.
  destruct (convert_body c source target w) as [[[]|e] w'] eqn:Hbody.
  - by constructor.
  - destruct (isinstance e Exception) eqn:He.
    + by apply script_exits.
    + by apply script_passes.
Qed.

Lemma only_prints_nil : only_prints [].
Proof. by intros ev Hin%elem_of_nil. Qed.

Lemma only_prints_singleton line : only_prints [EvPrint line].
Proof. intros ev ->%list_elem_of_singleton. by exists line. Qed.

(** A run of the [try] block that raises stopped in the decode step,
    or after a successful decode in the encode and write step. *)
Lemma convert_body_raises_where c source target w e w' :
  convert_body c source target w = (Raise e, w') →
  (w' = opened source w ∧
   ∀ raw img, fs w !! source = Some raw → decode c raw ≠ Ok img) ∨
  (w' = encoded source w ∧
   ∃ raw img, fs w !! source = Some raw ∧ decode c raw = Ok img).
Proof.
  intros Hbody. pose proof (convert_body_run c source target w) as Hrun.
  rewrite Hbody in Hrun. inversion Hrun; subst.
  - left. split; [done|]. congruence.
  - left. split; [done|]. congruence.
  - right. split; [done|]. by eexists _, _.
  - right. split; [done|]. by eexists _, _.
Qed.

(** The events and the filesystem after a call that ends in the handler
    or lets an exception pass: the open, after a successful decode the
    encoder, perhaps the error line; no write. *)
Lemma failed_run_events c source target w e w' (r : result unit * World) :
  convert_body c source target w = (Raise e, w') →
  r = (Raise (SysExit 1), record (EvPrint (error_message e)) w') ∨
  r = (Raise e, w') →
  ∃ prints, only_prints prints ∧ fs r.2 = fs w ∧
    ((∀ raw img, fs w !! source = Some raw → decode c raw ≠ Ok img) ∧
     new_events w r.2 = EvOpen source :: prints ∨
     (∃ raw img, fs w !! source = Some raw ∧ decode c raw = Ok img) ∧
     new_events w r.2 =
       EvOpen source :: EvEncode "ICO" [(256, 256)] :: prints).
Proof.
  intros Hbody Hr.
  destruct (convert_body_raises _ _ _ _ _ _ Hbody) as (_ & _ & Hfs).
  pose proof (convert_body_raises_where _ _ _ _ _ _ Hbody) as Hwhere.
  destruct Hr as [-> | ->]; cbn [snd].
  - exists [EvPrint (error_message e)].
    split; [apply only_prints_singleton|]. split; [done|].
    destruct Hwhere as [[-> Hdec] | [-> Hdec]]; [left|right];
      (split; [done|]);
      apply new_events_app; simpl; by rewrite <- ?app_assoc.
  - exists []. split; [apply only_prints_nil|]. split; [done|].
    destruct Hwhere as [[-> Hdec] | [-> Hdec]]; [left|right];
      (split; [done|]);
      apply new_events_app; simpl; by rewrite <- ?app_assoc.
Qed.

(** The same for any call that does not return. *)
Lemma convert_to_ico_failed_events c source target w :
  (convert_to_ico c source target w).1 ≠ Ok () →
  ∃ prints, only_prints prints ∧
    fs (convert_to_ico c source target w).2 = fs w ∧
    ((∀ raw img, fs w !! source = Some raw → decode c raw ≠ Ok img) ∧
     new_events w (convert_to_ico c source target w).2 =
       EvOpen source :: prints ∨
     (∃ raw img, fs w !! source = Some raw ∧ decode c raw = Ok img) ∧
     new_events w (convert_to_ico c source target w).2 =
       EvOpen source :: EvEncode "ICO" [(256, 256)] :: prints).
Proof.
  destruct (convert_to_ico_run c source target w)
    as [w' Hbody|e w' Hbody He|e w' Hbody He]; [done| |]; intros _.
  - by apply (failed_run_events c source target w e w' _ Hbody), or_introl.
  - by apply (failed_run_events c source target w e w' _ Hbody), or_intror.
Qed.

(** C8.  In every run the first event is the opening of the source.
    Either decoding fails, and then nothing is encoded or written; or it
    succeeds, and the next event is the encoding in ICO format with the
    size list [(256, 256)].  When the encoder raises or the target cannot
    be opened for writing, no write follows and every other path is as
    it was.  When the encoder succeeds and the target is writable, the
    encoded bytes are written to the target, which then holds them
    whether or not a file was there before, and the success line
    follows. *)
Theorem steps_run_in_order c w source target :
  let r := convert_to_ico c source target w in
  ∃ rest, new_events w r.2 = EvOpen source :: rest ∧
    ((∀ raw img, fs w !! source = Some raw → decode c raw ≠ Ok img) ∧
     only_prints rest ∧ fs r.2 = fs w
     ∨
     ∃ raw img rest',
       fs w !! source = Some raw ∧ decode c raw = Ok img ∧
       rest = EvEncode "ICO" [(256, 256)] :: rest' ∧
       (((∃ e, encode c img "ICO" [(256, 256)] = Raise e) ∨
         target ∈ locked w) ∧
        only_prints rest' ∧
        (∀ path, path ≠ target → fs r.2 !! path = fs w !! path)
        ∨
        ∃ content,
          encode c img "ICO" [(256, 256)] = Ok content ∧
          (target ∉ locked w) ∧
          rest' = [EvWrite target content;
                   EvPrint (success_message source target)] ∧
          fs r.2 = <[target := content]> (fs w) ∧
          fs r.2 !! target = Some content)).
Proof.
  intros r. subst r. unfold convert_to_ico, try_except.
  destruct (convert_body_run c source target w)
    as [Hraw|raw e Hraw Hdec|raw img e Hraw Hdec Henc
        |raw img content Hraw Hdec Henc Hlock
        |raw img content Hraw Hdec Henc Hlock].
  - rewrite isinstance_file_not_found.
    exists [EvPrint (error_message (file_not_found source))]. split.
    { apply new_events_app. simpl. by rewrite <- app_assoc. }
    left. split; [congruence|]. split; [apply only_prints_singleton|done].
  - destruct (isinstance e Exception).
    + exists [EvPrint (error_message e)]. split.
      { apply new_events_app. simpl. by rewrite <- app_assoc. }
      left. split; [congruence|]. split; [apply only_prints_singleton|done].
    + exists []. split; [by apply new_events_app|].
      left. split; [congruence|]. split; [apply only_prints_nil|done].
  - destruct (isinstance e Exception).
    + eexists. split.
      { apply new_events_app. simpl. by rewrite <- !app_assoc. }
      right. exists raw, img, [EvPrint (error_message e)].
      split; [done|]. split; [done|]. split; [done|]. left.
      split; [left; by exists e|]. split; [apply only_prints_singleton|done].
    + eexists. split.
      { apply new_events_app. simpl. by rewrite <- !app_assoc. }
      right. exists raw, img, [].
      split; [done|]. split; [done|]. split; [done|]. left.
      split; [left; by exists e|]. split; [apply only_prints_nil|done].
  - rewrite isinstance_permission_denied. eexists. split.
    { apply new_events_app. simpl. by rewrite <- !app_assoc. }
    right. exists raw, img, [EvPrint (error_message (permission_denied target))].
    split; [done|]. split; [done|]. split; [done|]. left.
    split; [by right|]. split; [apply only_prints_singleton|done].
  - eexists. split; [apply new_events_app, log_converted|].
    right. exists raw, img. eexists.
    split; [done|]. split; [done|]. split; [done|]. right.
    exists content. split; [done|]. split; [done|]. split; [done|].
    split; [done|]. simpl. apply lookup_insert_eq.
Qed.

(** C9 (as amended).  A call leaves every path other than the target as
    it was, so also the source file when source and target are different
    paths.  The only file it opens for reading is the source, and the
    only write it performs goes to the target. *)
Theorem only_target_is_written c w source target path :
  path ≠ target →
  let r := convert_to_ico c source target w in
  fs r.2 !! path = fs w !! path ∧
  (∀ p content, EvWrite p content ∈ new_events w r.2 → p = target) ∧
  (∀ p, EvOpen p ∈ new_events w r.2 → p = source).
Proof.
  intros Hne r. subst r. split.
  - rewrite convert_to_ico_fs.
    destruct (convert_body_fs c source target w)
      as [->|(img & content & _ & _ & ->)]; [done|].
    by apply lookup_insert_ne.
  - destruct (returns_or_not (convert_to_ico c source target w).1)
      as [Hok|Hfail].
    + destruct (convert_to_ico_ok_inv _ _ _ _ Hok)
        as (img & content & _ & _ & ->).
      cbn [snd]. rewrite (new_events_app _ _ _ (log_converted _ _ _ _ _)).
      split; intros *; rewrite !elem_of_cons, elem_of_nil;
        intros [H|[H|[H|[H|[]]]]]; congruence.
    + destruct (convert_to_ico_failed_events _ _ _ _ Hfail)
        as (prints & Hprints & _ & [[_ ->]|[_ ->]]);
        split; intros *; rewrite !elem_of_cons;
        intros H; decompose [or] H; try congruence;
        match goal with
        | Hin : _ ∈ prints |- _ => by destruct (Hprints _ Hin)
        end.
Qed.

(* ===================================================================== *)
(** ** A console that may refuse a line *)
(* ===================================================================== *)

(** On a working console the function is [convert_to_ico]. *)
Lemma convert_to_ico_on_working c source target w :
  convert_to_ico_on working_console c source target w =
  convert_to_ico c source target w.
Proof. reflexivity. Qed.

Lemma convert_handler_on_eq con e w :
  convert_handler_on con e w =
    match con (error_message e) with
    | Some e' => (Raise e', w)
    | None => (Raise (SysExit 1), record (EvPrint (error_message e)) w)
    end.
Proof.
  unfold convert_handler_on, print_to, mbind, Py_bind.
  by destruct (con (error_message e)).
Qed.

(** Up to the success print the [try] block does not look at the
    console. *)
Lemma convert_body_on_raises con c source target w e w' :
  convert_body c source target w = (Raise e, w') →
  convert_body_on con c source target w = (Raise e, w').
Proof.
  unfold convert_body, convert_body_on, Image_open, Image_save, print,
    print_to, mbind, Py_bind; simpl.
  destruct (fs w !! source) as [raw|]; simpl; [|done].
  destruct (decode c raw) as [img|e0]; simpl; [|done].
  destruct (encode c img "ICO" [(256, 256)]) as [content|e0]; simpl; [|done].
  destruct (decide (target ∈ locked w)); simpl; [done|discriminate].
Qed.

Lemma convert_body_on_converted con c source target w img content :
  converts c w source img content →
  target ∉ locked w →
  convert_body_on con c source target w =
    print_to con (success_message source target)
      (written source target content w).
Proof.
  intros (raw & Hraw & Hdec & Henc) Hlock.
  unfold convert_body_on, Image_open, Image_save, mbind, Py_bind; simpl.
  rewrite Hraw, Hdec, Henc; simpl. by rewrite decide_False.
Qed.

(** Every call on a console ends in one of the four ways. *)
Lemma convert_to_ico_on_run con c source target w :
  console_run con c source target w (convert_to_ico_on con c source target w).
Proof.
  assert (Hend : ∀ e0 w',
            raised_in_try con c source target w e0 →
            convert_body_on con c source target w = (Raise e0, w') →
            console_run con c source target w
              (convert_to_ico_on con c source target w)).
  { intros e0 w' Htry Hbody. unfold convert_to_ico_on, try_except.
    rewrite Hbody. destruct (isinstance e0 Exception) eqn:He0.
    - rewrite convert_handler_on_eq.
      destruct (con (error_message e0)) as [e|] eqn:Hcon.
      + by eapply on_reraises.
      + by apply on_exits.
    - by apply on_passes. }
  destruct (convert_body c source target w) as [[[]|e0] w'] eqn:Hbody.
  - destruct (convert_body_returns _ _ _ _ _ Hbody)
      as (img & content & Hconv & Hlock & _).
    pose proof (convert_body_on_converted con _ _ _ _ _ _ Hconv Hlock)
      as Hon.
    unfold print_to in Hon.
    destruct (con (success_message source target)) as [e|] eqn:Hcon.
    + apply (Hend e (written source target content w)); [|exact Hon].
      right. by exists img, content.
    + unfold convert_to_ico_on, try_except. rewrite Hon.
      by apply (on_returns _ _ _ _ _ img content).
  - apply (Hend e0 w').
    + left. apply raised_by_step_body. by rewrite Hbody.
    + by apply convert_body_on_raises.
Qed.

(** C10 (as amended).  On a console that may refuse a line, the call
    returns exactly when the source converts, the target is writable and
    the success line is printed, and then the target holds the encoded
    icon.  An instance of [Exception] reaches the caller only as what the
    handler's own print raised while it reported a caught exception.
    Every call returns, or ends the process from inside the handler with
    [exit(1)], or lets pass what the handler's print raised, or lets pass
    an exception of the [try] block that is not an instance of
    [Exception]. *)
Theorem caller_sees_return_exit_or_uncaught con c w source target :
  let r := convert_to_ico_on con c source target w in
  (r.1 = Ok () ↔
     ∃ img content,
       converts c w source img content ∧ writable w target ∧
       con (success_message source target) = None) ∧
  (r.1 = Ok () →
     ∃ img content,
       converts c w source img content ∧ fs r.2 !! target = Some content) ∧
  (∀ e, r.1 = Raise e → isinstance e Exception = true →
        ∃ e0, raised_in_try con c source target w e0 ∧
              isinstance e0 Exception = true ∧
              con (error_message e0) = Some e) ∧
  (r.1 = Ok () ∨
   (∃ e0, raised_in_try con c source target w e0 ∧
          isinstance e0 Exception = true ∧
          con (error_message e0) = None ∧ r.1 = Raise (SysExit 1)) ∨
   (∃ e0 e, raised_in_try con c source target w e0 ∧
            isinstance e0 Exception = true ∧
            con (error_message e0) = Some e ∧ r.1 = Raise e) ∨
   (∃ e0, raised_in_try con c source target w e0 ∧
          isinstance e0 Exception = false ∧ r.1 = Raise e0)).
Proof.
  intros r. subst r. split; [split|split; [|split]].
  - intros Hok.
    destruct (convert_to_ico_on_run con c source target w)
      as [img content Hconv Hw Hcon| | |]; try discriminate.
    by exists img, content.
  - intros (img & content & Hconv & Hw & Hcon).
    unfold convert_to_ico_on, try_except.
    rewrite (convert_body_on_converted con _ _ _ _ _ _ Hconv Hw).
    unfold print_to. by rewrite Hcon.
  - intros Hok.
    destruct (convert_to_ico_on_run con c source target w)
      as [img content Hconv Hw Hcon| | |]; try discriminate.
    exists img, content. split; [done|]. simpl. apply lookup_insert_eq.
  - intros e.
    destruct (convert_to_ico_on_run con c source target w)
      as [img content Hconv Hw Hcon|e0 w' Htry He0 Hcon
          |e0 e' w' Htry He0 Hcon|e0 w' Htry He0]; cbn [fst].
    + discriminate.
    + intros [= <-]. discriminate.
    + intros [= <-] _. by exists e0.
    + intros [= <-] He. congruence.
  - destruct (convert_to_ico_on_run con c source target w)
      as [img content Hconv Hw Hcon|e0 w' Htry He0 Hcon
          |e0 e' w' Htry He0 Hcon|e0 w' Htry He0]; cbn [fst].
    + by left.
    + right; left. by exists e0.
    + right; right; left. by exists e0, e'.
    + right; right; right. by exists e0.
Qed.

(* ===================================================================== *)
(** ** Closed examples *)
(* ===================================================================== *)

Lemma Solid_encodes_icon : encodes_icon Solid.codec.
Proof.
  intros img content. simpl. unfold Solid.encode.
  rewrite decide_True by done.
  destruct (decide (img_mode img = "CMYK")); [discriminate|].
  rewrite decide_True by (simpl; lia).
  intros [= <-]. reflexivity.
Qed.

Lemma Solid_decodes_icon : decodes_icon Solid.codec.
Proof.
  intros img content. simpl. unfold Solid.encode.
  rewrite decide_True by done.
  destruct (decide (img_mode img = "CMYK")); [discriminate|].
  rewrite decide_True by (simpl; lia).
  intros [= <-]. eexists. split; reflexivity.
Qed.

Lemma Solid_desk_writable path : writable Solid.desk path.
Proof. apply not_elem_of_empty. Qed.

Lemma Solid_desk_converts :
  converts Solid.codec Solid.desk "icon.png" Solid.rgba_image Solid.rgba_icon.
Proof. exists Solid.rgba_bitmap. repeat split; reflexivity. Qed.

(** C1, the claim as stated fails: a picture in a mode the encoder does
    not write is a valid decodable image at a readable path, the target
    is writable and the codec keeps its contract, yet the call ends in
    the handler with exit code 1 and no file at the target. *)
Lemma decodable_cmyk_source_is_not_converted :
  let w := Solid.desk in
  let r := convert_to_ico Solid.codec "print.tif" "app.ico" w in
  encodes_icon Solid.codec ∧
  fs w !! "print.tif" = Some Solid.cmyk_bitmap ∧
  decode Solid.codec Solid.cmyk_bitmap = Ok (mkImage (2, 2) "CMYK" [x7f]) ∧
  writable w "app.ico" ∧
  r.1 = Raise (SysExit 1) ∧
  exit_code r.1 ≠ Some 0 ∧
  fs r.2 !! "app.ico" = None ∧
  stdout r.2 = ["Error converting icon: cannot write mode CMYK as PNG"].
Proof.
  split; [apply Solid_encodes_icon|].
  split; [reflexivity|]. split; [reflexivity|].
  split; [apply Solid_desk_writable|].
  split; [reflexivity|]. split; [discriminate|].
  split; reflexivity.
Qed.

Lemma convert_encodable_source_produces_icon_witness :
  let r := convert_to_ico Solid.codec "icon.png" "app.ico" Solid.desk in
  r.1 = Ok () ∧ exit_code r.1 = Some 0 ∧
  stdout r.2 = stdout Solid.desk ++ [success_message "icon.png" "app.ico"] ∧
  fs r.2 !! "app.ico" = Some Solid.rgba_icon ∧
  Ico.frames Solid.rgba_icon = Some [(256, 256)].
Proof.
  apply (convert_encodable_source_produces_icon Solid.codec Solid.desk
           "icon.png" "app.ico" Solid.rgba_image Solid.rgba_icon).
  - exact Solid_encodes_icon.
  - exact Solid_desk_converts.
  - exact (Solid_desk_writable "app.ico").
Defined.

Lemma every_failure_is_reported_witness :
  let e := Exc UnidentifiedImageError "cannot identify image file" in
  let r := convert_to_ico Solid.codec "notes.txt" "app.ico" Solid.desk in
  r.1 = Raise (SysExit 1) ∧ exit_code r.1 = Some 1 ∧
  stdout r.2 = stdout Solid.desk ++ ["Error converting icon: " +:+ py_str e].
Proof.
  apply (every_failure_is_reported Solid.codec Solid.desk "notes.txt"
           "app.ico" (Exc UnidentifiedImageError "cannot identify image file")).
  - left. reflexivity.
  - reflexivity.
Defined.

Lemma missing_source_leaves_target_witness :
  let r := convert_to_ico Solid.codec "missing.png" "notes.txt" Solid.desk in
  r.1 = Raise (SysExit 1) ∧ exit_code r.1 = Some 1 ∧
  stdout r.2 =
    stdout Solid.desk ++ [error_message (file_not_found "missing.png")] ∧
  fs r.2 !! "notes.txt" = fs Solid.desk !! "notes.txt" ∧
  fs r.2 = fs Solid.desk ∧
  new_events Solid.desk r.2 =
    [EvOpen "missing.png";
     EvPrint (error_message (file_not_found "missing.png"))].
Proof.
  apply (missing_source_leaves_target Solid.codec Solid.desk
           "missing.png" "notes.txt").
  reflexivity.
Defined.

(** C5, the claim as stated fails: a [KeyboardInterrupt] raised inside
    the decode step is not an instance of [Exception]; it leaves the call
    as it was raised, and the handler prints nothing. *)
Lemma keyboard_interrupt_escapes_handler :
  let w := Solid.desk in
  let r := convert_to_ico Solid.interrupted "icon.png" "app.ico" w in
  raised_by_step Solid.interrupted "icon.png" "app.ico" w
    (Exc KeyboardInterrupt EmptyString) ∧
  r.1 = Raise (Exc KeyboardInterrupt EmptyString) ∧
  r.1 ≠ Raise (SysExit 1) ∧
  stdout r.2 = [].
Proof.
  split; [left; reflexivity|].
  split; [reflexivity|]. split; [discriminate|reflexivity].
Qed.

Lemma second_run_gives_same_icon_witness :
  let r1 := convert_to_ico Solid.codec "icon.png" "app.ico" Solid.desk in
  let r2 := convert_to_ico Solid.codec "icon.png" "app.ico" r1.2 in
  r1.1 = Ok () ∧ fs r1.2 !! "app.ico" = Some Solid.rgba_icon ∧
  ("icon.png" ≠ "app.ico" →
     r2.1 = Ok () ∧ fs r2.2 !! "app.ico" = Some Solid.rgba_icon) ∧
  (∃ content2,
     fs r2.2 !! "app.ico" = Some content2 ∧
     Ico.frames content2 = Ico.frames Solid.rgba_icon ∧
     Ico.frames Solid.rgba_icon = Some [(256, 256)]).
Proof.
  apply (second_run_gives_same_icon Solid.codec Solid.desk
           "icon.png" "app.ico" Solid.rgba_image Solid.rgba_icon).
  - exact Solid_encodes_icon.
  - exact Solid_desk_converts.
  - exact (Solid_desk_writable "app.ico").
Defined.

Lemma produced_icon_decodes_to_256_witness :
  let r := convert_to_ico Solid.codec "icon.png" "app.ico" Solid.desk in
  ∃ img', (Image_open Solid.codec "app.ico" r.2).1 = Ok img' ∧
          img_size img' = (256, 256).
Proof.
  apply (produced_icon_decodes_to_256 Solid.codec Solid.desk
           "icon.png" "app.ico").
  - exact Solid_decodes_icon.
  - reflexivity.
Defined.

(** C9, the claim as stated fails: called with the same path as source
    and as target, the call replaces the source picture by the icon. *)
Lemma same_path_replaces_source :
  let w := Solid.desk in
  let r := convert_to_ico Solid.codec "icon.png" "icon.png" w in
  r.1 = Ok () ∧
  fs w !! "icon.png" = Some Solid.rgba_bitmap ∧
  fs r.2 !! "icon.png" = Some Solid.rgba_icon ∧
  fs r.2 !! "icon.png" ≠ fs w !! "icon.png".
Proof.
  split; [reflexivity|]. split; [reflexivity|].
  split; [reflexivity|]. discriminate.
Qed.

Lemma only_target_is_written_witness :
  let r := convert_to_ico Solid.codec "icon.png" "app.ico" Solid.desk in
  fs r.2 !! "icon.png" = fs Solid.desk !! "icon.png" ∧
  (∀ p content, EvWrite p content ∈ new_events Solid.desk r.2 →
                p = "app.ico") ∧
  (∀ p, EvOpen p ∈ new_events Solid.desk r.2 → p = "icon.png").
Proof.
  apply (only_target_is_written Solid.codec Solid.desk
           "icon.png" "app.ico" "icon.png").
  discriminate.
Defined.

(** C10, the claim as stated fails.  On a closed console the picture is
    converted and stored, the success print raises a [ValueError], the
    handler catches it, and the handler's own print raises again: an
    instance of [Exception] reaches the caller.  And when the decode step
    is interrupted from the keyboard the call neither returns nor ends
    in the handler. *)
Lemma console_error_reaches_caller :
  let e := Exc ValueError "I/O operation on closed file." in
  let r := convert_to_ico_on Solid.closed_console Solid.codec
             "icon.png" "app.ico" Solid.desk in
  let r' := convert_to_ico_on working_console Solid.interrupted
              "icon.png" "app.ico" Solid.desk in
  (r.1 = Raise e ∧ isinstance e Exception = true ∧
   fs r.2 !! "app.ico" = Some Solid.rgba_icon) ∧
  (r'.1 = Raise (Exc KeyboardInterrupt EmptyString) ∧
   r'.1 ≠ Ok () ∧ r'.1 ≠ Raise (SysExit 1)).
Proof.
  split.
  - split; [reflexivity|]. split; reflexivity.
  - split; [reflexivity|]. split; discriminate.
Qed.

(** C3, the claim as stated fails: a call left by a [KeyboardInterrupt]
    prints no line at all. *)
Lemma interrupted_call_prints_nothing :
  let w := Solid.desk in
  let r := convert_to_ico Solid.interrupted "print.tif" "print.ico" w in
  stdout r.2 = stdout w ∧
  ¬ (∃ line, stdout r.2 = stdout w ++ [line]).
Proof.
  split; [reflexivity|]. intros [line Hline]. discriminate Hline.
Qed.

(** The script as it is run: with the picture in place its [__main__]
    block converts it and the interpreter exits with code 0. *)
Example main_converts :
  let w := Solid.world
             [("d:/kaifa/apphier/AppHider/icon.png", Solid.rgba_bitmap)] in
  let r := main Solid.codec w in
  exit_code r.1 = Some 0 ∧
  stdout r.2 =
    ["Successfully converted d:/kaifa/apphier/AppHider/icon.png to d:/kaifa/apphier/AppHider/app.ico"] ∧
  (Ico.frames <$> fs r.2 !! "d:/kaifa/apphier/AppHider/app.ico") =
    Some (Some [(256, 256)]).
Proof. repeat split; reflexivity. Qed.

(** Without the picture it prints the error and exits with code 1. *)
Example main_without_picture :
  let r := main Solid.codec (Solid.world []) in
  exit_code r.1 = Some 1 ∧
  stdout r.2 =
    ["Error converting icon: [Errno 2] No such file or directory: 'd:/kaifa/apphier/AppHider/icon.png'"] ∧
  fs r.2 = ∅.
Proof. repeat split; reflexivity. Qed.

(** With the target closed to writing it prints the error and exits with
    code 1; no file appears. *)
Example locked_target_is_reported :
  let r := convert_to_ico Solid.codec "icon.png" "app.ico" Solid.locked_desk in
  exit_code r.1 = Some 1 ∧
  stdout r.2 =
    ["Error converting icon: [Errno 13] Permission denied: 'app.ico'"] ∧
  fs r.2 !! "app.ico" = None.
Proof. repeat split; reflexivity. Qed.

(* ===================================================================== *)
(** ** The script as a whole *)
(* ===================================================================== *)

(** The outcome of the [try] block, and what it stores, depend on the
    world only through the source file and the lock on the target. *)
Lemma convert_body_depends c source target w w' :
  fs w !! source = fs w' !! source →
  locked w = locked w' →
  (convert_body c source target w).1 = (convert_body c source target w').1 ∧
  ((convert_body c source target w).1 = Ok () →
   ∃ content,
     fs (convert_body c source target w).2 = <[target := content]> (fs w) ∧
     fs (convert_body c source target w').2 = <[target := content]> (fs w')).
Proof.
  destruct w as [files lock events], w' as [files' lock' events'].
  simpl. intros Hsrc <-.
  unfold convert_body, Image_open, Image_save, print, mbind, Py_bind; simpl.
  rewrite <- Hsrc.
  destruct (files !! source) as [raw|]; simpl; [|done].
  destruct (decode c raw) as [img|e]; simpl; [|done].
  destruct (encode c img "ICO" [(256, 256)]) as [content|e]; simpl; [|done].
  destruct (decide (target ∈ lock)); simpl; [done|].
  split; [done|]. intros _. by exists content.
Qed.

(** With a codec that raises only errors, whatever the [try] block
    raises is an instance of [Exception]. *)
Lemma convert_body_raises_error c source target w e w' :
  raises_only_errors c →
  convert_body c source target w = (Raise e, w') →
  isinstance e Exception = true.
Proof.
  intros [Hdec Henc] Hbody.
  pose proof (convert_body_run c source target w) as Hrun.
  rewrite Hbody in Hrun. inversion Hrun; subst; eauto.
Qed.

(** X1.  Run as a script, with any codec and in any directory, the
    program leaves every file other than the icon it writes as it was,
    and so never changes the picture it reads. *)
Theorem script_keeps_its_picture c w :
  let r := main c w in
  (∀ path, path ≠ "d:/kaifa/apphier/AppHider/app.ico" →
           fs r.2 !! path = fs w !! path) ∧
  fs r.2 !! "d:/kaifa/apphier/AppHider/icon.png" =
    fs w !! "d:/kaifa/apphier/AppHider/icon.png".
Proof.
  intros r. subst r. unfold main.
  assert (Hframe : ∀ path, path ≠ "d:/kaifa/apphier/AppHider/app.ico" →
            fs (convert_to_ico c "d:/kaifa/apphier/AppHider/icon.png"
                  "d:/kaifa/apphier/AppHider/app.ico" w).2 !! path =
            fs w !! path).
  { intros path Hne. rewrite convert_to_ico_fs.
    destruct (convert_body_fs c "d:/kaifa/apphier/AppHider/icon.png"
                "d:/kaifa/apphier/AppHider/app.ico" w)
      as [->|(img & content & _ & _ & ->)]; [done|].
    by apply lookup_insert_ne. }
  split; [exact Hframe|]. apply Hframe. discriminate.
Qed.

(** X2.  With a codec that raises only errors, the exit code tells the
    outcome: it is 0 and the target holds the encoded icon, or it is 1
    and the error line of the failure was printed. *)
Theorem exit_code_tells_outcome c w source target :
  raises_only_errors c →
  let r := convert_to_ico c source target w in
  (exit_code r.1 = Some 0 ∧ r.1 = Ok () ∧
   ∃ img content,
     converts c w source img content ∧ fs r.2 !! target = Some content) ∨
  (exit_code r.1 = Some 1 ∧ r.1 = Raise (SysExit 1) ∧
   ∃ e, raised_by_step c source target w e ∧
        stdout r.2 = stdout w ++ [error_message e]).
Proof.
  intros Hcodec r. subst r.
  destruct (convert_to_ico_run c source target w)
    as [w' Hbody|e w' Hbody He|e w' Hbody He].
  - left. split; [done|]. split; [done|].
    destruct (convert_body_returns _ _ _ _ _ Hbody)
      as (img & content & Hconv & _ & ->).
    exists img, content. split; [done|]. simpl. apply lookup_insert_eq.
  - right. split; [done|]. split; [done|]. exists e. split.
    + apply raised_by_step_body. by rewrite Hbody.
    + cbn [snd]. rewrite stdout_record_print.
      by destruct (convert_body_raises _ _ _ _ _ _ Hbody) as (_ & -> & _).
  - by rewrite (convert_body_raises_error _ _ _ _ _ _ Hcodec Hbody) in He.
Qed.

(** X3.  Converting one picture to two targets, neither of them the
    picture itself, succeeds in either order, leaves the same bytes at
    both targets, and ends with the same filesystem. *)
Theorem two_targets_in_either_order c w source t1 t2 img content :
  converts c w source img content →
  writable w t1 → writable w t2 →
  source ≠ t1 → source ≠ t2 →
  let a := convert_to_ico c source t2 (convert_to_ico c source t1 w).2 in
  let b := convert_to_ico c source t1 (convert_to_ico c source t2 w).2 in
  a.1 = Ok () ∧ b.1 = Ok () ∧
  fs a.2 !! t1 = Some content ∧ fs a.2 !! t2 = Some content ∧
  fs a.2 = fs b.2.
Proof.
  intros Hconv Hw1 Hw2 Hne1 Hne2 a b. subst a b.
  rewrite (convert_to_ico_converted _ _ _ _ _ _ Hconv Hw1).
  rewrite (convert_to_ico_converted _ _ _ _ _ _ Hconv Hw2). cbn [snd].
  assert (Hstill : ∀ t w1, fs w1 = <[t := content]> (fs w) → source ≠ t →
                           converts c w1 source img content).
  { intros t w1 Hfs Hne. destruct Hconv as (raw & Hraw & Hdec & Henc).
    exists raw. by rewrite Hfs, lookup_insert_ne. }
  rewrite (convert_to_ico_converted c source t2 _ img content);
    [|by apply (Hstill t1)|done].
  rewrite (convert_to_ico_converted c source t1 _ img content);
    [|by apply (Hstill t2)|done].
  cbn [fst snd]. simpl. repeat split.
  - destruct (decide (t1 = t2)) as [->|Hne].
    + apply lookup_insert_eq.
    + rewrite lookup_insert_ne by done. apply lookup_insert_eq.
  - apply lookup_insert_eq.
  - destruct (decide (t1 = t2)) as [->|Hne]; [done|].
    by apply insert_insert_ne.
Qed.

(** X4.  What the target held before plays no part: in two directories
    that differ at most at the target, with a source that is another
    path, the call ends the same way, and when it returns the two
    directories have become equal. *)
Theorem old_target_is_irrelevant c w w' source target :
  source ≠ target →
  locked w = locked w' →
  (∀ path, path ≠ target → fs w !! path = fs w' !! path) →
  let r := convert_to_ico c source target w in
  let r' := convert_to_ico c source target w' in
  r.1 = r'.1 ∧ (r.1 = Ok () → fs r.2 = fs r'.2).
Proof.
  intros Hne Hlock Hfs r r'. subst r r'.
  destruct (convert_body_depends c source target w w' (Hfs _ Hne) Hlock)
    as [Hres Hstore].
  rewrite !convert_to_ico_fs. unfold convert_to_ico, try_except.
  destruct (convert_body c source target w) as [[[]|e] w1];
    destruct (convert_body c source target w') as [[[]|e'] w1'];
    simpl in *; try discriminate.
  - split; [done|]. intros _.
    destruct (Hstore eq_refl) as (content & -> & ->).
    apply map_eq. intros path.
    destruct (decide (target = path)) as [->|Hp].
    + by rewrite !lookup_insert_eq.
    + rewrite !lookup_insert_ne by done. apply Hfs. congruence.
  - injection Hres as <-.
    destruct (isinstance e Exception); simpl; split; done.
Qed.

(** X5.  Every call prints at most one line.  It prints none exactly
    when it is left by an exception the handler does not catch; when it
    returns or ends in the handler it prints exactly one. *)
Theorem prints_at_most_one_line c w source target :
  let r := convert_to_ico c source target w in
  (stdout r.2 = stdout w ∧
   ∃ e, r.1 = Raise e ∧ raised_by_step c source target w e ∧
        isinstance e Exception = false) ∨
  (∃ line, stdout r.2 = stdout w ++ [line] ∧
           (r.1 = Ok () ∨ r.1 = Raise (SysExit 1))).
Proof.
  intros r. subst r.
  destruct (convert_to_ico_run c source target w)
    as [w' Hbody|e w' Hbody He|e w' Hbody He]; cbn [fst snd].
  - right. exists (success_message source target).
    destruct (convert_body_returns _ _ _ _ _ Hbody)
      as (img & content & _ & _ & ->).
    split; [|by left]. by rewrite stdout_record_print, stdout_written.
  - right. exists (error_message e). split; [|by right].
    rewrite stdout_record_print.
    by destruct (convert_body_raises _ _ _ _ _ _ Hbody) as (_ & -> & _).
  - left. destruct (convert_body_raises _ _ _ _ _ _ Hbody) as (_ & Hout & _).
    split; [done|]. exists e. split; [done|]. split; [|done].
    apply raised_by_step_body. by rewrite Hbody.
Qed.

Lemma Solid_decode_bitmap_raises raw e :
  Solid.decode_bitmap raw = Raise e → isinstance e Exception = true.
Proof.
  unfold Solid.decode_bitmap.
  repeat case_match; first [discriminate | by intros [= <-]].
Qed.

Lemma Solid_raises_only_errors : raises_only_errors Solid.codec.
Proof.
  split; simpl.
  - intros raw e. unfold Solid.decode.
    repeat case_match; try discriminate; apply Solid_decode_bitmap_raises.
  - intros img format sizes e. unfold Solid.encode.
    repeat case_match; first [discriminate | by intros [= <-]].
Qed.

Lemma exit_code_tells_outcome_witness :
  let r := convert_to_ico Solid.codec "print.tif" "app.ico" Solid.desk in
  (exit_code r.1 = Some 0 ∧ r.1 = Ok () ∧
   ∃ img content,
     converts Solid.codec Solid.desk "print.tif" img content ∧
     fs r.2 !! "app.ico" = Some content) ∨
  (exit_code r.1 = Some 1 ∧ r.1 = Raise (SysExit 1) ∧
   ∃ e, raised_by_step Solid.codec "print.tif" "app.ico" Solid.desk e ∧
        stdout r.2 = stdout Solid.desk ++ [error_message e]).
Proof.
  apply (exit_code_tells_outcome Solid.codec Solid.desk "print.tif" "app.ico").
  exact Solid_raises_only_errors.
Defined.

Lemma two_targets_in_either_order_witness :
  let a := convert_to_ico Solid.codec "icon.png" "small.ico"
             (convert_to_ico Solid.codec "icon.png" "app.ico" Solid.desk).2 in
  let b := convert_to_ico Solid.codec "icon.png" "app.ico"
             (convert_to_ico Solid.codec "icon.png" "small.ico" Solid.desk).2 in
  a.1 = Ok () ∧ b.1 = Ok () ∧
  fs a.2 !! "app.ico" = Some Solid.rgba_icon ∧
  fs a.2 !! "small.ico" = Some Solid.rgba_icon ∧
  fs a.2 = fs b.2.
Proof.
  apply (two_targets_in_either_order Solid.codec Solid.desk "icon.png"
           "app.ico" "small.ico" Solid.rgba_image Solid.rgba_icon).
  - exact Solid_desk_converts.
  - exact (Solid_desk_writable "app.ico").
  - exact (Solid_desk_writable "small.ico").
  - discriminate.
  - discriminate.
Defined.

Lemma old_target_is_irrelevant_witness :
  let w' := store "app.ico" [x00] Solid.desk in
  let r := convert_to_ico Solid.codec "icon.png" "app.ico" Solid.desk in
  let r' := convert_to_ico Solid.codec "icon.png" "app.ico" w' in
  r.1 = r'.1 ∧ (r.1 = Ok () → fs r.2 = fs r'.2).
Proof.
  apply (old_target_is_irrelevant Solid.codec Solid.desk
           (store "app.ico" [x00] Solid.desk) "icon.png" "app.ico").
  - discriminate.
  - reflexivity.
  - intros path Hne. simpl. symmetry. apply lookup_insert_ne. congruence.
Defined.
